(** * gam_300 engine: GameManager lifecycle, frame stepping and Clock

    A shallow embedding of [Manager/GameManager.cpp] and of the [Clock]
    interface declared in [Utility/Clock.h].

    The orchestrator's two fields ([m_game_over], [m_step_count]) are threaded
    through a small state monad together with the history of calls made to the
    collaborating managers.  What a collaborator answers (a start-up status,
    whether the escape key was just pressed, whether a scene loaded) is an
    input of the operation that asks for it.  The collaborators are taken
    not to call back into the GameManager while they run. *)

From Stdlib Require Import ZArith List String Bool Lia.
Import ListNotations.
Local Open Scope string_scope.
Local Open Scope Z_scope.
Local Open Scope list_scope.

(** ** C++ [int] and [int64_t] arithmetic *)

Module CInt.

Definition INT_MAX : Z := 2147483647.
Definition INT_MIN : Z := -2147483648.

(** Reduction of a mathematical integer to the 32-bit two's complement
    value an [int] holds. *)
Definition wrap (z : Z) : Z := (z + 2 ^ 31) mod 2 ^ 32 - 2 ^ 31.

(** [x++] on an [int]. *)
Definition incr (z : Z) : Z := wrap (z + 1).

(** [a % b]: the remainder of the division that truncates toward zero. *)
Definition rem (a b : Z) : Z := Z.rem a b.

(** An [int] used as a condition: true when it is not zero. *)
Definition truthy (rc : Z) : bool := negb (rc =? 0).

Definition in_range (z : Z) : Prop := INT_MIN <= z <= INT_MAX.

(** 64-bit two's complement, for [int64_t]. *)
Definition wrap64 (z : Z) : Z := (z + 2 ^ 63) mod 2 ^ 64 - 2 ^ 63.

End CInt.

(** ** Collaborators and the call history *)

(** The four managers the GameManager brings up, named by the accessors the
    source uses for them ([LM], [IM], [EM], [SEM]). *)
Inductive Subsystem : Type := LM | IM | EM | SEM.

Definition Subsystem_eqb (a b : Subsystem) : bool :=
  match a, b with
  | LM, LM | IM, IM | EM, EM | SEM, SEM => true
  | _, _ => false
  end.

(** The order in which [GameManager::startUp] starts them. *)
Definition startup_order : list Subsystem := [LM; IM; EM; SEM].

(** A C++ [float], kept as its IEEE-754 binary32 bit pattern: the
    GameManager only forwards it. *)
Record float : Type := mk_float { float_bits : Z }.

(** An argument of a printf-style [writeLog] call. *)
Inductive LogArg : Type :=
| ArgInt (z : Z)
| ArgStr (s : string).

(** One call made by the GameManager to a collaborator, with the answer it
    received where the call has one. *)
Inductive Event : Type :=
| Manager_startUp_call (rc : Z)       (* Manager::startUp(), the base class *)
| Manager_shutDown_call               (* Manager::shutDown() *)
| StartUp (m : Subsystem) (rc : Z)    (* m.startUp() returned rc *)
| ShutDown (m : Subsystem)            (* m.shutDown() *)
| WriteLog (fmt : string) (args : list LogArg)
| RegisterInputSystem (ok : bool)     (* EM.registerSystem<InputSystem>() *)
| LoadScene (path : string) (ok : bool)
| SaveScene (path : string) (ok : bool)
| IsKeyJustPressed (key : Z) (pressed : bool)
| UpdateSystems (dt : float).

(** The key code GLFW gives the escape key. *)
Definition GLFW_KEY_ESCAPE : Z := 256.

(** ** State *)

(** The two fields of the GameManager and the calls made so far.
    [m_step_count] is an [int]: [getStepCount] returns it as one and
    [writeLog] prints it with [%d].  Its increment is taken to wrap around in
    two's complement, as the compilers the engine is built with make it do;
    whatever an overflowing [++] does, an [int] cannot hold 2^31. *)
Record World : Type := mk_World {
  m_game_over : bool;
  m_step_count : Z;
  trace : list Event
}.

(** The spec's [running] flag is the negation of [m_game_over]. *)
Definition running (w : World) : bool := negb (m_game_over w).

(** The state the constructor leaves, before any call. *)
Definition constructed : World :=
  {| m_game_over := false; m_step_count := 0; trace := [] |}.

(** ** A state monad over [World] *)

Definition M (A : Type) : Type := World -> A * World.

Definition ret {A : Type} (a : A) : M A := fun w => (a, w).

Definition bind {A B : Type} (c : M A) (k : A -> M B) : M B :=
  fun w => k (fst (c w)) (snd (c w)).

Notation "x <- c ;; k" := (bind c (fun x => k))
  (at level 61, c at next level, right associativity).
Notation "c ;; k" := (bind c (fun _ => k))
  (at level 61, right associativity).

Definition exec {A : Type} (c : M A) (w : World) : World := snd (c w).
Definition result {A : Type} (c : M A) (w : World) : A := fst (c w).

Definition emit (ev : Event) : M unit :=
  fun w => (tt, {| m_game_over := m_game_over w;
                   m_step_count := m_step_count w;
                   trace := trace w ++ [ev] |}).

Definition set_game_over (b : bool) : M unit :=
  fun w => (tt, {| m_game_over := b;
                   m_step_count := m_step_count w;
                   trace := trace w |}).

Definition set_step_count (z : Z) : M unit :=
  fun w => (tt, {| m_game_over := m_game_over w;
                   m_step_count := z;
                   trace := trace w |}).

Definition get_step_count : M Z := fun w => (m_step_count w, w).

Definition when (b : bool) (c : M unit) : M unit := if b then c else ret tt.

(** ** Calls to the collaborators *)

Definition Manager_startUp (rc : Z) : M Z := emit (Manager_startUp_call rc) ;; ret rc.
Definition Manager_shutDown : M unit := emit Manager_shutDown_call.
Definition startUp_of (m : Subsystem) (rc : Z) : M Z := emit (StartUp m rc) ;; ret rc.
Definition shutDown_of (m : Subsystem) : M unit := emit (ShutDown m).
Definition writeLog (fmt : string) (args : list LogArg) : M unit := emit (WriteLog fmt args).
Definition registerInputSystem (ok : bool) : M bool := emit (RegisterInputSystem ok) ;; ret ok.
Definition loadScene (path : string) (ok : bool) : M bool := emit (LoadScene path ok) ;; ret ok.
Definition saveScene (path : string) (ok : bool) : M bool := emit (SaveScene path ok) ;; ret ok.
Definition isKeyJustPressed (key : Z) (pressed : bool) : M bool :=
  emit (IsKeyJustPressed key pressed) ;; ret pressed.
Definition updateSystems (dt : float) : M unit := emit (UpdateSystems dt).

(** What the collaborators answer during one [startUp] call. *)
Record StartUpEnv : Type := mk_StartUpEnv {
  parent_status : Z;              (* Manager::startUp() *)
  status : Subsystem -> Z;        (* m.startUp(), for each manager *)
  registered : bool;              (* registerSystem<InputSystem>() is not null *)
  getAssetFilePath : string -> string;
  load_first : bool;              (* first SEM.loadScene *)
  save_ok : bool;                 (* SEM.saveScene *)
  load_retry : bool               (* second SEM.loadScene *)
}.

(** ** GameManager *)

Module GameManager.

(** Modelled from the spec: the default argument of [setGameOver], declared
    in GameManager.h, which is not available.  [shutDown] calls
    [setGameOver()] and the spec has it force [running = false]. *)
Definition setGameOver_default : bool := true.

Definition setGameOver (new_game_over : bool) : M unit :=
  set_game_over new_game_over ;;
  when new_game_over
    (writeLog "GameManager::setGameOver() - Game over set to true" []).

Definition startUp (e : StartUpEnv) : M Z :=
  rc <- Manager_startUp (parent_status e) ;;
  if CInt.truthy rc then ret (-1) else
  rc <- startUp_of LM (status e LM) ;;
  if CInt.truthy rc then ret (-1) else
  writeLog "GameManager::startUp() - LogManager started successfully" [] ;;
  rc <- startUp_of IM (status e IM) ;;
  if CInt.truthy rc then
    (writeLog "GameManager::startUp() - Failed to start InputManager" [] ;;
     shutDown_of LM ;;
     ret (-1))
  else
  writeLog "GameManager::startUp() - InputManager started successfully" [] ;;
  rc <- startUp_of EM (status e EM) ;;
  if CInt.truthy rc then
    (writeLog "GameManager::startUp() - Failed to start ECSManager" [] ;;
     shutDown_of IM ;;
     shutDown_of LM ;;
     ret (-1))
  else
  writeLog "GameManager::startUp() - ECSManager started successfully" [] ;;
  rc <- startUp_of SEM (status e SEM) ;;
  if CInt.truthy rc then
    (writeLog "GameManager::startUp() - Failed to start SerialisationManager" [] ;;
     shutDown_of EM ;;
     shutDown_of IM ;;
     shutDown_of LM ;;
     ret (-1))
  else
  writeLog "GameManager::startUp() - SerialisationManager started successfully" [] ;;
  inputSystem <- registerInputSystem (registered e) ;;
  (if negb inputSystem
   then writeLog "GameManager::startUp() - Failed to register InputSystem" []
   else writeLog "GameManager::startUp() - InputSystem registered successfully" []) ;;
  (let scenePath := getAssetFilePath e "Scene/Game.scn" in
   loaded <- loadScene scenePath (load_first e) ;;
   if loaded then
     writeLog "GameManager::startUp() - Scene loaded successfully from %s"
              [ArgStr scenePath]
   else
     (writeLog "GameManager::startUp() - Failed to load scene, creating default scene" [] ;;
      saveScene scenePath (save_ok e) ;;
      reloaded <- loadScene scenePath (load_retry e) ;;
      if reloaded
      then writeLog "GameManager::startUp() - Default scene loaded successfully" []
      else writeLog "GameManager::startUp() - WARNING: Failed to load default scene" [])) ;;
  set_step_count 0 ;;
  set_game_over false ;;
  ret 0.

Definition isValid (event_name : string) : bool := String.eqb event_name "step".

Definition shutDown : M unit :=
  writeLog "GameManager::shutDown() - Shutting down GameManager" [] ;;
  setGameOver setGameOver_default ;;
  shutDown_of SEM ;;
  shutDown_of EM ;;
  shutDown_of IM ;;
  shutDown_of LM ;;
  Manager_shutDown.

(** [escape] is what [IM.isKeyJustPressed(GLFW_KEY_ESCAPE)] answers during
    this call. *)
Definition update (dt : float) (escape : bool) : M unit :=
  n <- get_step_count ;;
  set_step_count (CInt.incr n) ;;
  n <- get_step_count ;;
  when (CInt.rem n 100 =? 0)
    (writeLog "GameManager::update() - Step count: %d" [ArgInt n]) ;;
  pressed <- isKeyJustPressed GLFW_KEY_ESCAPE escape ;;
  when pressed
    (setGameOver true ;;
     writeLog "GameManager::update() - Escape key pressed, setting game over" []) ;;
  updateSystems dt.

Definition getGameOver : M bool := fun w => (m_game_over w, w).

(** [FRAME_TIME_DEFAULT] is a constant of GameManager.h, taken as an
    argument. *)
Definition getFrameTime (FRAME_TIME_DEFAULT : Z) : M Z :=
  fun w => (FRAME_TIME_DEFAULT, w).

Definition getStepCount : M Z := get_step_count.

End GameManager.

(** ** Public operations as a transition system *)

(** One call of the public interface, together with what the collaborators
    answer while it runs. *)
Inductive Op : Type :=
| OpStartUp (e : StartUpEnv)
| OpUpdate (dt : float) (escape : bool)
| OpShutDown
| OpSetGameOver (new_game_over : bool)
| OpGetGameOver
| OpGetStepCount
| OpGetFrameTime (FRAME_TIME_DEFAULT : Z)
| OpIsValid (event_name : string).

Definition step (w : World) (op : Op) : World :=
  match op with
  | OpStartUp e => exec (GameManager.startUp e) w
  | OpUpdate dt escape => exec (GameManager.update dt escape) w
  | OpShutDown => exec GameManager.shutDown w
  | OpSetGameOver b => exec (GameManager.setGameOver b) w
  | OpGetGameOver => exec GameManager.getGameOver w
  | OpGetStepCount => exec GameManager.getStepCount w
  | OpGetFrameTime d => exec (GameManager.getFrameTime d) w
  | OpIsValid _ => w
  end.

Definition run (ops : list Op) (w : World) : World := fold_left step ops w.

(** A frame is the [dt] handed to [update] and the escape-key answer. *)
Definition Frame : Type := (float * bool)%type.

Definition frame_op (f : Frame) : Op := OpUpdate (fst f) (snd f).

(** The driver loop: one [update] per frame. *)
Definition updates (fs : list Frame) (w : World) : World := run (map frame_op fs) w.

(** Frames in which the escape key is not pressed. *)
Definition quiet (fs : list Frame) : Prop := Forall (fun f => snd f = false) fs.

(** Whether every manager, and the base class, reports success. *)
Definition all_start (e : StartUpEnv) : bool :=
  (parent_status e =? 0) && (status e LM =? 0) && (status e IM =? 0)
  && (status e EM =? 0) && (status e SEM =? 0).

(** The operations able to turn [m_game_over] from true to false. *)
Definition clears_game_over (op : Op) : bool :=
  match op with
  | OpStartUp e => all_start e
  | OpSetGameOver b => negb b
  | _ => false
  end.

(** The operations able to turn [m_game_over] from false to true. *)
Definition raises_game_over (op : Op) : bool :=
  match op with
  | OpSetGameOver b => b
  | OpUpdate _ escape => escape
  | OpShutDown => true
  | _ => false
  end.

Definition is_startUp (op : Op) : bool :=
  match op with OpStartUp _ => true | _ => false end.


(** ** Reading the call history *)

(** The start-up and shut-down calls made to the four managers. *)
Definition is_lifecycle (ev : Event) : bool :=
  match ev with
  | StartUp _ _ | ShutDown _ => true
  | _ => false
  end.

Definition lifecycle (t : list Event) : list Event := filter is_lifecycle t.

(** Modelled from the spec: the subsystem contract ([startUp() -> status],
    [shutDown()]) of Manager.h, which is not available.  A manager is started
    from a [startUp] that returned 0 until its next [shutDown]; a failed
    [startUp] leaves it as it was. *)
Definition lifecycle_step (m : Subsystem) (started : bool) (ev : Event) : bool :=
  match ev with
  | StartUp m' rc =>
      if Subsystem_eqb m m' then (if rc =? 0 then true else started) else started
  | ShutDown m' => if Subsystem_eqb m m' then false else started
  | _ => started
  end.

Definition started_from (b : bool) (t : list Event) (m : Subsystem) : bool :=
  fold_left (lifecycle_step m) t b.

Definition is_started (t : list Event) (m : Subsystem) : bool :=
  started_from false t m.

(** The heartbeat record of [update]. *)
Definition heartbeat (n : Z) : Event :=
  WriteLog "GameManager::update() - Step count: %d" [ArgInt n].

Definition is_heartbeat (ev : Event) : bool :=
  match ev with
  | WriteLog fmt _ => String.eqb fmt "GameManager::update() - Step count: %d"
  | _ => false
  end.

(** Scene loads and saves, for counting them. *)
Definition is_load (ev : Event) : bool :=
  match ev with LoadScene _ _ => true | _ => false end.

Definition is_save (ev : Event) : bool :=
  match ev with SaveScene _ _ => true | _ => false end.

(** ** Events of [update] and [shutDown] *)

(** The events one [update] call appends, given the counter it reaches. *)
Definition update_events (n : Z) (dt : float) (escape : bool) : list Event :=
  (if n mod 100 =? 0 then [heartbeat n] else [])
  ++ [IsKeyJustPressed GLFW_KEY_ESCAPE escape]
  ++ (if escape
      then [WriteLog "GameManager::setGameOver() - Game over set to true" [];
            WriteLog "GameManager::update() - Escape key pressed, setting game over" []]
      else [])
  ++ [UpdateSystems dt].

(** The calls [shutDown] makes once the flag is set. *)
Definition teardown : M unit :=
  shutDown_of SEM ;; shutDown_of EM ;; shutDown_of IM ;; shutDown_of LM ;;
  Manager_shutDown.

Definition teardown_events : list Event :=
  [ShutDown SEM; ShutDown EM; ShutDown IM; ShutDown LM; Manager_shutDown_call].

(** What [shutDown] does before it reaches the first manager. *)
Definition shutDown_prologue : M unit :=
  writeLog "GameManager::shutDown() - Shutting down GameManager" [] ;;
  GameManager.setGameOver GameManager.setGameOver_default.

Definition shutDown_prologue_events : list Event :=
  [WriteLog "GameManager::shutDown() - Shutting down GameManager" [];
   WriteLog "GameManager::setGameOver() - Game over set to true" []].

(** The counter values reached by [n] successive updates from [c]. *)
Fixpoint counts_reached (c : Z) (n : nat) : list Z :=
  match n with
  | O => []
  | S n' => CInt.incr c :: counts_reached (CInt.incr c) n'
  end.

(** The events a run of frames appends, the counter starting at [c]. *)
Fixpoint frames_events (c : Z) (fs : list Frame) : list Event :=
  match fs with
  | [] => []
  | f :: fs' =>
      update_events (CInt.incr c) (fst f) (snd f) ++ frames_events (CInt.incr c) fs'
  end.

(** The state [w] with its game-over flag replaced. *)
Definition with_game_over (b : bool) (w : World) : World :=
  {| m_game_over := b; m_step_count := m_step_count w; trace := trace w |}.

(** ** The spec's account of a failed start-up *)

(** The start-up and shut-down calls the spec asks for when the manager at
    position [k] of the start-up order (counted from 0) fails with status
    [rc]: the [k] managers before it start, it is tried, and the [k] started
    ones are shut down in reverse. *)
Definition rollback_calls (k : nat) (m : Subsystem) (rc : Z) : list Event :=
  map (fun m' => StartUp m' 0) (firstn k startup_order)
  ++ [StartUp m rc]
  ++ map ShutDown (rev (firstn k startup_order)).

(** ** The spec's account of the two one-time actions of [startUp] *)

(** Start-up calls and records when all four managers start. *)
Definition all_started_events : list Event :=
  [ Manager_startUp_call 0;
    StartUp LM 0;
    WriteLog "GameManager::startUp() - LogManager started successfully" [];
    StartUp IM 0;
    WriteLog "GameManager::startUp() - InputManager started successfully" [];
    StartUp EM 0;
    WriteLog "GameManager::startUp() - ECSManager started successfully" [];
    StartUp SEM 0;
    WriteLog "GameManager::startUp() - SerialisationManager started successfully" [] ].

(** Registration of the update handler: attempted once, outcome logged. *)
Definition registration_events (ok : bool) : list Event :=
  [ RegisterInputSystem ok;
    WriteLog (if ok
              then "GameManager::startUp() - InputSystem registered successfully"
              else "GameManager::startUp() - Failed to register InputSystem") [] ].

(** Scene loading: one load; on failure a save to the same path and exactly
    one more load, whose failure is logged as a warning. *)
Definition scene_events (path : string) (first saved retry : bool) : list Event :=
  if first then
    [ LoadScene path true;
      WriteLog "GameManager::startUp() - Scene loaded successfully from %s" [ArgStr path] ]
  else
    [ LoadScene path false;
      WriteLog "GameManager::startUp() - Failed to load scene, creating default scene" [];
      SaveScene path saved;
      LoadScene path retry;
      WriteLog (if retry
                then "GameManager::startUp() - Default scene loaded successfully"
                else "GameManager::startUp() - WARNING: Failed to load default scene") [] ].

(** ** Clock *)

Module Clock.

Record t : Type := mk { m_previous_time : Z }.

(** A reading of the monotonic time source in microseconds, [None] when the
    source cannot be read. *)
Definition Reading : Type := option Z.

(** Modelled from the spec: the bodies of [Clock::Clock], [Clock::delta] and
    [Clock::split] (Clock.cpp is not available; Clock.h declares them with
    [int64_t] results and [split] as [const]).  Both return the microseconds
    elapsed since the stored reference point, or -1 when the time source
    fails; [delta] then moves the reference point to the reading, [split]
    does not. *)
Definition elapsed (now : Reading) (c : t) : Z :=
  match now with
  | Some n => CInt.wrap64 (n - m_previous_time c)
  | None => -1
  end.

Definition create (now : Z) : t := {| m_previous_time := now |}.

Definition delta (now : Reading) (c : t) : Z * t :=
  (elapsed now c,
   match now with
   | Some n => {| m_previous_time := n |}
   | None => c
   end).

Definition split (now : Reading) (c : t) : Z * t := (elapsed now c, c).

Inductive Call : Type := Delta (now : Reading) | Split (now : Reading).

Definition call (k : Call) (c : t) : Z * t :=
  match k with
  | Delta now => delta now c
  | Split now => split now c
  end.

(** Runs the calls in order; returns the values they produced and the
    final clock. *)
Fixpoint calls (ks : list Call) (c : t) : list Z * t :=
  match ks with
  | [] => ([], c)
  | k :: ks' =>
      let r := call k c in
      let rs := calls ks' (snd r) in
      (fst r :: fst rs, snd rs)
  end.

Definition is_split (k : Call) : bool :=
  match k with Split _ => true | Delta _ => false end.

End Clock.

(** ** Concrete inputs used by the examples *)

Definition sixtieth : float := mk_float 1015580809.

Definition resolve_under_assets (name : string) : string := "Assets/" ++ name.

(** Every collaborator succeeds. *)
Definition env_ok : StartUpEnv :=
  {| parent_status := 0; status := fun _ => 0; registered := true;
     getAssetFilePath := resolve_under_assets;
     load_first := true; save_ok := true; load_retry := true |}.

(** The manager [m] fails to start with status -1; everything else succeeds. *)
Definition env_failing (m : Subsystem) : StartUpEnv :=
  {| parent_status := 0;
     status := fun m' => if Subsystem_eqb m m' then -1 else 0;
     registered := true;
     getAssetFilePath := resolve_under_assets;
     load_first := true; save_ok := true; load_retry := true |}.

(** Registration fails and no scene can be loaded, even after the save. *)
Definition env_degraded : StartUpEnv :=
  {| parent_status := 0; status := fun _ => 0; registered := false;
     getAssetFilePath := resolve_under_assets;
     load_first := false; save_ok := false; load_retry := false |}.

(** A world whose counter sits at the largest [int]. *)
Definition at_int_max (game_over : bool) : World :=
  {| m_game_over := game_over; m_step_count := CInt.INT_MAX; trace := [] |}.

(** A state that startUp would change if it succeeded: 7 steps, game over. *)
Definition after_seven_steps : World :=
  {| m_game_over := true; m_step_count := 7; trace := [] |}.

(** [n] frames of a sixtieth of a second, the escape key never pressed. *)
Definition quiet_frames (n : Z) : list Frame := repeat (sixtieth, false) (Z.to_nat n).

(** The state reached from a successful start-up by 2^31 - 1 quiet frames. *)
Definition after_int_max_frames : World :=
  updates (quiet_frames CInt.INT_MAX) (exec (GameManager.startUp env_ok) constructed).

(** ** Further readings of the call history *)

(** The calls one [startUp] makes, branch by branch. *)
Definition startUp_events (e : StartUpEnv) : list Event :=
  Manager_startUp_call (parent_status e) ::
  if CInt.truthy (parent_status e) then [] else
  StartUp LM (status e LM) ::
  if CInt.truthy (status e LM) then [] else
  WriteLog "GameManager::startUp() - LogManager started successfully" [] ::
  StartUp IM (status e IM) ::
  if CInt.truthy (status e IM) then
    [WriteLog "GameManager::startUp() - Failed to start InputManager" [];
     ShutDown LM]
  else
  WriteLog "GameManager::startUp() - InputManager started successfully" [] ::
  StartUp EM (status e EM) ::
  if CInt.truthy (status e EM) then
    [WriteLog "GameManager::startUp() - Failed to start ECSManager" [];
     ShutDown IM; ShutDown LM]
  else
  WriteLog "GameManager::startUp() - ECSManager started successfully" [] ::
  StartUp SEM (status e SEM) ::
  if CInt.truthy (status e SEM) then
    [WriteLog "GameManager::startUp() - Failed to start SerialisationManager" [];
     ShutDown EM; ShutDown IM; ShutDown LM]
  else
  WriteLog "GameManager::startUp() - SerialisationManager started successfully" [] ::
  registration_events (registered e)
  ++ scene_events (getAssetFilePath e "Scene/Game.scn")
                  (load_first e) (save_ok e) (load_retry e).

(** Whether every [writeLog] call of [t] is made while the LogManager is
    started, [up] telling whether it is started before [t]. *)
Fixpoint logs_while_up (up : bool) (t : list Event) : bool :=
  match t with
  | [] => true
  | ev :: t' =>
      (match ev with WriteLog _ _ => up | _ => true end)
      && logs_while_up (lifecycle_step LM up ev) t'
  end.

(** The one-time actions [startUp] performs once the managers are up. *)
Definition is_late_action (ev : Event) : bool :=
  match ev with
  | RegisterInputSystem _ | LoadScene _ _ | SaveScene _ _ => true
  | _ => false
  end.

Definition is_forward (ev : Event) : bool :=
  match ev with UpdateSystems _ => true | _ => false end.

Definition is_key_query (ev : Event) : bool :=
  match ev with IsKeyJustPressed _ _ => true | _ => false end.

(** The operations of a session: everything but [startUp] and [shutDown]. *)
Definition in_session (op : Op) : bool :=
  match op with
  | OpStartUp _ | OpShutDown => false
  | _ => true
  end.

(** The operations that only read: the getters and [isValid]. *)
Definition is_query (op : Op) : bool :=
  match op with
  | OpGetGameOver | OpGetStepCount | OpGetFrameTime _ | OpIsValid _ => true
  | _ => false
  end.


(** The record [setGameOver] writes for an argument. *)
Definition setGameOver_events (b : bool) : list Event :=
  if b then [WriteLog "GameManager::setGameOver() - Game over set to true" []] else [].

(** The base class fails to start with status 1. *)
Definition env_base_failing : StartUpEnv :=
  {| parent_status := 1; status := fun _ => 0; registered := true;
     getAssetFilePath := resolve_under_assets;
     load_first := true; save_ok := true; load_retry := true |}.

(** Five frames, the escape key pressed in the second. *)
Definition five_frames : list Frame :=
  [(sixtieth, false); (sixtieth, true); (sixtieth, false);
   (sixtieth, false); (sixtieth, false)].

(** * Properties *)

(** ** Arithmetic of [int] *)

Lemma wrap_in_range (z : Z) : CInt.in_range (CInt.wrap z).
Proof.
  unfold CInt.in_range, CInt.wrap, CInt.INT_MIN, CInt.INT_MAX.
  pose proof (Z.mod_pos_bound (z + 2 ^ 31) (2 ^ 32) ltac:(lia)). lia.
Qed.

Lemma wrap_id (z : Z) : CInt.in_range z -> CInt.wrap z = z.
Proof.
  unfold CInt.in_range, CInt.wrap, CInt.INT_MIN, CInt.INT_MAX. intros H.
  rewrite Z.mod_small; lia.
Qed.

Lemma wrap_wrap_add (a b : Z) : CInt.wrap (CInt.wrap a + b) = CInt.wrap (a + b).
Proof.
  unfold CInt.wrap.
  replace ((a + 2 ^ 31) mod 2 ^ 32 - 2 ^ 31 + b + 2 ^ 31)
    with ((a + 2 ^ 31) mod 2 ^ 32 + b) by lia.
  rewrite Zplus_mod_idemp_l. f_equal. f_equal. lia.
Qed.

Lemma incr_below (z : Z) : CInt.INT_MIN <= z < CInt.INT_MAX -> CInt.incr z = z + 1.
Proof.
  intros H. unfold CInt.incr. apply wrap_id.
  unfold CInt.in_range. lia.
Qed.

Lemma incr_at_max : CInt.incr CInt.INT_MAX = CInt.INT_MIN.
Proof. reflexivity. Qed.

(** [n % 100 == 0] in C++ and [n mod 100 = 0] agree: both say 100 divides n. *)
Lemma rem_100_zero (n : Z) : (CInt.rem n 100 =? 0) = (n mod 100 =? 0).
Proof.
  unfold CInt.rem.
  destruct (Z.eqb_spec (Z.rem n 100) 0) as [Hr | Hr];
    destruct (Z.eqb_spec (n mod 100) 0) as [Hm | Hm]; try reflexivity; exfalso.
  - apply Hm. apply Z.mod_divide; [lia |]. apply Z.rem_divide; [lia | exact Hr].
  - apply Hr. apply Z.rem_divide; [lia |]. apply Z.mod_divide; [lia | exact Hm].
Qed.

(** ** What each operation does to the state *)

Lemma truthy_false_iff (rc : Z) : CInt.truthy rc = false <-> rc = 0.
Proof.
  unfold CInt.truthy. destruct (Z.eqb_spec rc 0); simpl; split; congruence.
Qed.

Lemma truthy_true_iff (rc : Z) : CInt.truthy rc = true <-> rc <> 0.
Proof.
  unfold CInt.truthy. destruct (Z.eqb_spec rc 0); simpl; split; congruence.
Qed.

Lemma update_exec (dt : float) (escape : bool) (w : World) :
  exec (GameManager.update dt escape) w =
  {| m_game_over := escape || m_game_over w;
     m_step_count := CInt.incr (m_step_count w);
     trace := trace w ++ update_events (CInt.incr (m_step_count w)) dt escape |}.
Proof.
  unfold update_events. rewrite <- rem_100_zero.
  unfold exec, GameManager.update, bind, get_step_count, set_step_count, when,
    isKeyJustPressed, GameManager.setGameOver, writeLog, updateSystems, emit,
    set_game_over, ret, heartbeat; simpl.
  destruct (CInt.rem (CInt.incr (m_step_count w)) 100 =? 0), escape; simpl;
    repeat rewrite <- app_assoc; reflexivity.
Qed.

Lemma setGameOver_exec (b : bool) (w : World) :
  exec (GameManager.setGameOver b) w =
  {| m_game_over := b;
     m_step_count := m_step_count w;
     trace := trace w ++
              (if b then [WriteLog "GameManager::setGameOver() - Game over set to true" []]
               else []) |}.
Proof.
  unfold exec, GameManager.setGameOver, bind, when, writeLog, emit, set_game_over, ret.
  destruct b; simpl; [reflexivity | rewrite app_nil_r; reflexivity].
Qed.

Lemma shutDown_exec (w : World) :
  exec GameManager.shutDown w =
  {| m_game_over := true;
     m_step_count := m_step_count w;
     trace := trace w ++ shutDown_prologue_events ++ teardown_events |}.
Proof.
  unfold exec, GameManager.shutDown, GameManager.setGameOver,
    GameManager.setGameOver_default, bind, when, writeLog, shutDown_of,
    Manager_shutDown, emit, set_game_over, ret; simpl.
  repeat rewrite <- app_assoc. reflexivity.
Qed.

Lemma all_start_true_iff (e : StartUpEnv) :
  all_start e = true <->
  parent_status e = 0 /\ forall m, status e m = 0.
Proof.
  unfold all_start. repeat rewrite andb_true_iff. repeat rewrite Z.eqb_eq.
  split.
  - intros [[[[Hp Hl] Hi] He] Hs]. split; [exact Hp |]. intros []; assumption.
  - intros [Hp H]. repeat split; auto.
Qed.

(** Evaluates a [startUp] call of the goal into an equation [Hrun]. *)
Ltac eval_startUp e w :=
  unfold exec, result;
  let r := fresh "r" in
  let w' := fresh "w'" in
  destruct (GameManager.startUp e w) as [r w'] eqn:Hrun;
  unfold GameManager.startUp, Manager_startUp, startUp_of, shutDown_of,
    writeLog, registerInputSystem, loadScene, saveScene, emit, set_step_count,
    set_game_over, ret, bind in Hrun;
  cbn [fst snd m_game_over m_step_count trace] in Hrun.

(** Uses the known start-up statuses to take the branches of [Hrun]. *)
Ltac take_branches :=
  repeat match goal with
    | H : ?x = 0, Hrun : context [CInt.truthy ?x] |- _ =>
        rewrite H in Hrun; cbn in Hrun
    | H : CInt.truthy ?x = true, Hrun : context [CInt.truthy ?x] |- _ =>
        rewrite H in Hrun; cbn in Hrun
    end.

Lemma started_from_app (b : bool) (t u : list Event) (m : Subsystem) :
  started_from b (t ++ u) m = started_from (started_from b t m) u m.
Proof. unfold started_from. apply fold_left_app. Qed.

Lemma is_started_app (t u : list Event) (m : Subsystem) :
  is_started (t ++ u) m = started_from (is_started t m) u m.
Proof. apply started_from_app. Qed.

(** C1: when the manager at position k of the start-up order fails (the
    managers before it having started), startUp returns -1; the start-up and
    shut-down calls it made are the starts of the first k managers, the failed
    start, and the shut-downs of those k managers in reverse order, so no
    later manager is started; a manager that is started afterwards was
    started before the call and is not among the first k, and from a state
    where no manager is started none is left started.  Position k counts
    from 0: it is the claim's k-th subsystem with k one larger. *)
Theorem startUp_failure_rolls_back
    (e : StartUpEnv) (w : World) (k : nat) (m : Subsystem) :
  parent_status e = 0 ->
  nth_error startup_order k = Some m ->
  Forall (fun m' => status e m' = 0) (firstn k startup_order) ->
  status e m <> 0 ->
  result (GameManager.startUp e) w = -1 /\
  exists evs,
    trace (exec (GameManager.startUp e) w) = trace w ++ evs /\
    lifecycle evs = rollback_calls k m (status e m) /\
    (forall m', is_started (trace (exec (GameManager.startUp e) w)) m' = true ->
                is_started (trace w) m' = true /\ ~ In m' (firstn k startup_order)) /\
    ((forall m', is_started (trace w) m' = false) ->
     forall m', is_started (trace (exec (GameManager.startUp e) w)) m' = false).
Proof.
  intros Hp Hk Hpre Hfail.
  assert (Hne : (status e m =? 0) = false) by (apply Z.eqb_neq; exact Hfail).
  apply truthy_true_iff in Hfail.
  unfold startup_order in *.
  destruct k as [|[|[|[|k]]]]; cbn in Hk, Hpre;
    try (destruct k; discriminate); injection Hk as <-;
    repeat match goal with
      | H : Forall _ (_ :: _) |- _ => inversion H; clear H; subst
      end;
    eval_startUp e w; take_branches; injection Hrun as <- <-;
    (split; [reflexivity |]);
    eexists; (split; [cbn; repeat rewrite <- app_assoc; reflexivity |]);
    (split; [reflexivity |]);
    cbn [trace snd]; repeat rewrite <- app_assoc;
    (split; [ intros m' | intros H0 m'; specialize (H0 m') ]);
    rewrite is_started_app; cbn; rewrite ?Hne;
    destruct m'; cbn; intros; try congruence; try discriminate;
    (split; [assumption | intuition discriminate]).
Qed.

Lemma startUp_failure_rolls_back_witness :
  parent_status (env_failing EM) = 0 /\
  nth_error startup_order 2 = Some EM /\
  Forall (fun m' => status (env_failing EM) m' = 0) (firstn 2 startup_order) /\
  status (env_failing EM) EM <> 0 /\
  result (GameManager.startUp (env_failing EM)) constructed = -1 /\
  exists evs,
    trace (exec (GameManager.startUp (env_failing EM)) constructed)
    = trace constructed ++ evs /\
    lifecycle evs = rollback_calls 2 EM (status (env_failing EM) EM) /\
    (forall m',
        is_started (trace (exec (GameManager.startUp (env_failing EM)) constructed)) m'
        = true ->
        is_started (trace constructed) m' = true /\
        ~ In m' (firstn 2 startup_order)) /\
    ((forall m', is_started (trace constructed) m' = false) ->
     forall m',
       is_started (trace (exec (GameManager.startUp (env_failing EM)) constructed)) m'
       = false).
Proof.
  assert (Hp : parent_status (env_failing EM) = 0) by reflexivity.
  assert (Hk : nth_error startup_order 2 = Some EM) by reflexivity.
  assert (Hpre : Forall (fun m' => status (env_failing EM) m' = 0)
                        (firstn 2 startup_order))
    by (repeat constructor).
  assert (Hfail : status (env_failing EM) EM <> 0) by (cbn; discriminate).
  repeat (split; [assumption |]).
  exact (startUp_failure_rolls_back (env_failing EM) constructed 2 EM Hp Hk Hpre Hfail).
Defined.

(** ** Outcome of [startUp] *)

Lemma startUp_success (e : StartUpEnv) (w : World) :
  all_start e = true ->
  GameManager.startUp e w =
  (0, {| m_game_over := false;
         m_step_count := 0;
         trace := trace w ++ all_started_events
                  ++ registration_events (registered e)
                  ++ scene_events (getAssetFilePath e "Scene/Game.scn")
                                  (load_first e) (save_ok e) (load_retry e) |}).
Proof.
  intros H. apply all_start_true_iff in H. destruct H as [Hp Hs].
  pose proof (Hs LM) as Hl. pose proof (Hs IM) as Hi.
  pose proof (Hs EM) as He. pose proof (Hs SEM) as Hm.
  eval_startUp e w. take_branches. rewrite <- Hrun.
  unfold registration_events, scene_events, all_started_events.
  destruct (registered e), (load_first e), (load_retry e); cbn;
    repeat rewrite <- app_assoc; reflexivity.
Qed.

Lemma startUp_failure (e : StartUpEnv) (w : World) :
  all_start e = false ->
  result (GameManager.startUp e) w = -1 /\
  m_game_over (exec (GameManager.startUp e) w) = m_game_over w /\
  m_step_count (exec (GameManager.startUp e) w) = m_step_count w.
Proof.
  intros H. unfold all_start in H.
  eval_startUp e w. unfold CInt.truthy in Hrun.
  repeat match type of Hrun with
    | context [?x =? 0] =>
        let E := fresh "E" in
        destruct (x =? 0) eqn:E; cbn in Hrun;
        try (injection Hrun as <- <-; cbn; auto)
    end.
  repeat match goal with
    | E : (_ =? 0) = true |- _ => rewrite E in H; clear E
    end.
  discriminate.
Qed.

Lemma startUp_result (e : StartUpEnv) (w : World) :
  result (GameManager.startUp e) w = if all_start e then 0 else -1.
Proof.
  destruct (all_start e) eqn:H.
  - unfold result. rewrite (startUp_success e w H). reflexivity.
  - apply (startUp_failure e w H).
Qed.

Lemma startUp_returns_0_iff (e : StartUpEnv) (w : World) :
  result (GameManager.startUp e) w = 0 <-> all_start e = true.
Proof.
  rewrite startUp_result. destruct (all_start e); split; congruence.
Qed.

Lemma startUp_returns_minus_1_iff (e : StartUpEnv) (w : World) :
  result (GameManager.startUp e) w = -1 <-> all_start e = false.
Proof.
  rewrite startUp_result. destruct (all_start e); split; congruence.
Qed.

(** C9: a startUp that returns -1 leaves the step count and the game-over
    flag (hence running) as they were before the call. *)
Theorem failed_startUp_keeps_state (e : StartUpEnv) (w : World) :
  result (GameManager.startUp e) w = -1 ->
  m_step_count (exec (GameManager.startUp e) w) = m_step_count w /\
  m_game_over (exec (GameManager.startUp e) w) = m_game_over w /\
  running (exec (GameManager.startUp e) w) = running w.
Proof.
  intros H. apply startUp_returns_minus_1_iff in H.
  destruct (startUp_failure e w H) as (_ & Hg & Hc).
  unfold running. rewrite Hg, Hc. auto.
Qed.

Lemma failed_startUp_keeps_state_witness :
  result (GameManager.startUp (env_failing IM)) after_seven_steps = -1 /\
  m_step_count (exec (GameManager.startUp (env_failing IM)) after_seven_steps) = 7 /\
  m_game_over (exec (GameManager.startUp (env_failing IM)) after_seven_steps) = true /\
  running (exec (GameManager.startUp (env_failing IM)) after_seven_steps) = false.
Proof.
  split; [reflexivity |].
  exact (failed_startUp_keeps_state (env_failing IM) after_seven_steps eq_refl).
Defined.

(** C6: once the base class and the four managers have started, startUp
    returns 0 whatever registerSystem, loadScene and saveScene answer.  The
    calls it makes are the four starts, one registration whose outcome is
    logged, and the scene loading: one load, and on its failure one save to
    the same path followed by exactly one more load, whose failure is logged
    as a warning.  The state is that of a successful start-up. *)
Theorem startUp_tolerates_late_failures (e : StartUpEnv) (w : World) :
  parent_status e = 0 ->
  (forall m, status e m = 0) ->
  let path := getAssetFilePath e "Scene/Game.scn" in
  let late := registration_events (registered e)
              ++ scene_events path (load_first e) (save_ok e) (load_retry e) in
  result (GameManager.startUp e) w = 0 /\
  trace (exec (GameManager.startUp e) w) = trace w ++ all_started_events ++ late /\
  List.length (filter is_load late) = (if load_first e then 1 else 2)%nat /\
  filter is_save late = (if load_first e then [] else [SaveScene path (save_ok e)]) /\
  m_step_count (exec (GameManager.startUp e) w) = 0 /\
  running (exec (GameManager.startUp e) w) = true.
Proof.
  intros Hp Hs path late.
  assert (H : all_start e = true) by (apply all_start_true_iff; auto).
  unfold result, exec, running. rewrite (startUp_success e w H). cbn [fst snd trace].
  subst late path. unfold registration_events, scene_events.
  destruct (load_first e); cbn; repeat split; reflexivity.
Qed.

Lemma startUp_tolerates_late_failures_witness :
  parent_status env_degraded = 0 /\
  (forall m, status env_degraded m = 0) /\
  result (GameManager.startUp env_degraded) constructed = 0 /\
  trace (exec (GameManager.startUp env_degraded) constructed) =
    all_started_events
    ++ registration_events false
    ++ scene_events "Assets/Scene/Game.scn" false false false.
Proof.
  split; [reflexivity |]. split; [intros m; reflexivity |].
  pose proof (startUp_tolerates_late_failures env_degraded constructed
                eq_refl (fun m => eq_refl)) as H.
  cbv zeta in H. destruct H as (Hr & Ht & _).
  split; [exact Hr | exact Ht].
Defined.

(** ** Sequences of operations *)

Lemma updates_cons (f : Frame) (fs : list Frame) (w : World) :
  updates (f :: fs) w = updates fs (exec (GameManager.update (fst f) (snd f)) w).
Proof. reflexivity. Qed.

Lemma updates_app (fs gs : list Frame) (w : World) :
  updates (fs ++ gs) w = updates gs (updates fs w).
Proof. unfold updates, run. rewrite map_app. apply fold_left_app. Qed.

(** After any frames the counter is the starting one plus their number,
    reduced to an [int]. *)
Lemma updates_step_count (fs : list Frame) (w : World) :
  CInt.in_range (m_step_count w) ->
  m_step_count (updates fs w) = CInt.wrap (m_step_count w + Z.of_nat (List.length fs)).
Proof.
  revert w. induction fs as [| f fs IH]; intros w Hw.
  - cbn [List.length Z.of_nat]. rewrite Z.add_0_r. symmetry. apply wrap_id. exact Hw.
  - rewrite updates_cons, IH.
    + rewrite update_exec. cbn [m_step_count]. unfold CInt.incr.
      rewrite wrap_wrap_add. f_equal. cbn [List.length]. lia.
    + rewrite update_exec. cbn [m_step_count]. apply wrap_in_range.
Qed.

Lemma updates_game_over (fs : list Frame) (w : World) :
  m_game_over (updates fs w) = existsb snd fs || m_game_over w.
Proof.
  revert w. induction fs as [| f fs IH]; intros w.
  - reflexivity.
  - rewrite updates_cons, IH, update_exec. cbn [m_game_over existsb].
    destruct (snd f), (existsb snd fs), (m_game_over w); reflexivity.
Qed.

Lemma quiet_existsb (fs : list Frame) : quiet fs -> existsb snd fs = false.
Proof.
  induction 1 as [| f fs Hf _ IH]; [reflexivity |].
  cbn. rewrite Hf, IH. reflexivity.
Qed.

Lemma quiet_frames_quiet (n : Z) : quiet (quiet_frames n).
Proof.
  unfold quiet, quiet_frames. apply Forall_forall. intros f Hf.
  apply repeat_spec in Hf. subst f. reflexivity.
Qed.

Lemma quiet_frames_length (n : Z) :
  0 <= n -> Z.of_nat (List.length (quiet_frames n)) = n.
Proof.
  intros Hn. unfold quiet_frames. rewrite repeat_length. apply Z2Nat.id. exact Hn.
Qed.

(** C2, amended: a startUp that returns 0 leaves the step count at 0 and
    running true, and n updates without an escape key press then leave the
    step count at n and running true, for every n up to INT_MAX = 2^31 - 1. *)
Theorem steps_are_counted (e : StartUpEnv) (w : World) (fs : list Frame) :
  result (GameManager.startUp e) w = 0 ->
  quiet fs ->
  Z.of_nat (List.length fs) <= CInt.INT_MAX ->
  m_step_count (exec (GameManager.startUp e) w) = 0 /\
  running (exec (GameManager.startUp e) w) = true /\
  m_step_count (updates fs (exec (GameManager.startUp e) w)) = Z.of_nat (List.length fs) /\
  running (updates fs (exec (GameManager.startUp e) w)) = true.
Proof.
  intros Hr Hq Hn. apply startUp_returns_0_iff in Hr.
  unfold exec, running. rewrite (startUp_success e w Hr). cbn [snd].
  rewrite updates_game_over, (quiet_existsb fs Hq).
  rewrite updates_step_count by (cbn; unfold CInt.in_range, CInt.INT_MIN, CInt.INT_MAX; lia).
  cbn [m_step_count m_game_over orb negb].
  repeat split. apply wrap_id.
  unfold CInt.in_range, CInt.INT_MIN, CInt.INT_MAX in *. lia.
Qed.

Lemma steps_are_counted_witness :
  result (GameManager.startUp env_ok) constructed = 0 /\
  quiet [(sixtieth, false); (sixtieth, false); (sixtieth, false)] /\
  3 <= CInt.INT_MAX /\
  m_step_count
    (updates [(sixtieth, false); (sixtieth, false); (sixtieth, false)]
             (exec (GameManager.startUp env_ok) constructed)) = 3.
Proof.
  assert (Hq : quiet [(sixtieth, false); (sixtieth, false); (sixtieth, false)])
    by (repeat constructor).
  assert (Hn : 3 <= CInt.INT_MAX) by (intros H; discriminate H).
  split; [reflexivity |]. split; [exact Hq |]. split; [exact Hn |].
  exact (proj1 (proj2 (proj2
    (steps_are_counted env_ok constructed
       [(sixtieth, false); (sixtieth, false); (sixtieth, false)]
       eq_refl Hq Hn)))).
Defined.

(** C2 as stated fails at n = 2^31: after a successful startUp and 2^31
    updates without an escape key press the [int] counter holds -2^31. *)
Lemma step_count_wraps_at_2_31 :
  result (GameManager.startUp env_ok) constructed = 0 /\
  quiet (quiet_frames 2147483648) /\
  Z.of_nat (List.length (quiet_frames 2147483648)) = 2147483648 /\
  m_step_count (updates (quiet_frames 2147483648)
                        (exec (GameManager.startUp env_ok) constructed))
  = -2147483648 /\
  m_step_count (updates (quiet_frames 2147483648)
                        (exec (GameManager.startUp env_ok) constructed))
  <> Z.of_nat (List.length (quiet_frames 2147483648)).
Proof.
  assert (Hlen : Z.of_nat (List.length (quiet_frames 2147483648)) = 2147483648)
    by (apply quiet_frames_length; intros H; discriminate H).
  assert (Hc : m_step_count (updates (quiet_frames 2147483648)
                 (exec (GameManager.startUp env_ok) constructed)) = -2147483648).
  { rewrite updates_step_count.
    - rewrite Hlen. reflexivity.
    - split; intros H; discriminate H. }
  split; [reflexivity |]. split; [apply quiet_frames_quiet |].
  split; [exact Hlen |]. split; [exact Hc |].
  rewrite Hc, Hlen. discriminate.
Qed.

(** ** Termination request *)

Lemma game_over_stays (w : World) (op : Op) :
  clears_game_over op = false ->
  m_game_over w = true ->
  m_game_over (step w op) = true.
Proof.
  intros Hop Hw. destruct op as [e | dt escape | | b | | | d | s]; cbn [step].
  - cbn in Hop. rewrite (proj1 (proj2 (startUp_failure e w Hop))). exact Hw.
  - rewrite update_exec. cbn. rewrite Hw. apply orb_true_r.
  - rewrite shutDown_exec. reflexivity.
  - rewrite setGameOver_exec. cbn in *. destruct b; [reflexivity | discriminate].
  - exact Hw.
  - exact Hw.
  - exact Hw.
  - exact Hw.
Qed.

Lemma game_over_stays_run (ops : list Op) (w : World) :
  Forall (fun op => clears_game_over op = false) ops ->
  m_game_over w = true ->
  m_game_over (run ops w) = true.
Proof.
  intros Hops. revert w. induction Hops as [| op ops Hop _ IH]; intros w Hw.
  - exact Hw.
  - cbn. apply IH. apply game_over_stays; assumption.
Qed.

(** C3, amended: an update during which the escape key is reported as just
    pressed ends with running false, and running stays false through every
    later operation until a startUp that returns 0 or a setGameOver(false). *)
Theorem escape_stops_running (dt : float) (w : World) (ops : list Op) :
  Forall (fun op => clears_game_over op = false) ops ->
  running (exec (GameManager.update dt true) w) = false /\
  running (run ops (exec (GameManager.update dt true) w)) = false.
Proof.
  intros Hops.
  assert (H : m_game_over (exec (GameManager.update dt true) w) = true)
    by (rewrite update_exec; reflexivity).
  unfold running. rewrite (game_over_stays_run ops _ Hops H), H. auto.
Qed.

Lemma escape_stops_running_witness :
  Forall (fun op => clears_game_over op = false)
         [OpUpdate sixtieth false; OpStartUp (env_failing LM); OpShutDown] /\
  running (run [OpUpdate sixtieth false; OpStartUp (env_failing LM); OpShutDown]
               (exec (GameManager.update sixtieth true) constructed)) = false.
Proof.
  assert (H : Forall (fun op => clears_game_over op = false)
                     [OpUpdate sixtieth false; OpStartUp (env_failing LM); OpShutDown])
    by (repeat constructor).
  split; [exact H |].
  exact (proj2 (escape_stops_running sixtieth constructed _ H)).
Defined.

(** C3 as stated fails: after an update that saw the escape key, a
    setGameOver(false) makes running true again although no startUp ran. *)
Lemma setGameOver_false_resumes_after_escape :
  running (exec (GameManager.update sixtieth true) constructed) = false /\
  existsb is_startUp [OpSetGameOver false] = false /\
  running (run [OpSetGameOver false]
               (exec (GameManager.update sixtieth true) constructed)) = true.
Proof. repeat split. Qed.

(** ** Heartbeat *)

Lemma filter_heartbeat_update_events (n : Z) (dt : float) (escape : bool) :
  filter is_heartbeat (update_events n dt escape) =
  if n mod 100 =? 0 then [heartbeat n] else [].
Proof.
  unfold update_events. destruct (n mod 100 =? 0), escape; reflexivity.
Qed.

(** C4: an update takes the step count to the [int] increment of the count
    it found, and the events it appends contain the heartbeat record exactly
    when that incremented count is a multiple of 100; the record then occurs
    once and reports the incremented count.  On no other update is a
    heartbeat record written. *)
Theorem heartbeat_every_100_steps (dt : float) (escape : bool) (w : World) :
  exists evs,
    trace (exec (GameManager.update dt escape) w) = trace w ++ evs /\
    m_step_count (exec (GameManager.update dt escape) w)
      = CInt.incr (m_step_count w) /\
    filter is_heartbeat evs =
      (if CInt.incr (m_step_count w) mod 100 =? 0
       then [heartbeat (CInt.incr (m_step_count w))]
       else []) /\
    filter is_heartbeat evs =
      (if m_step_count (exec (GameManager.update dt escape) w) mod 100 =? 0
       then [heartbeat (m_step_count (exec (GameManager.update dt escape) w))]
       else []) /\
    (existsb is_heartbeat evs = true <->
     m_step_count (exec (GameManager.update dt escape) w) mod 100 = 0).
Proof.
  rewrite update_exec. cbn [trace m_step_count].
  exists (update_events (CInt.incr (m_step_count w)) dt escape).
  split; [reflexivity |]. split; [reflexivity |].
  split; [apply filter_heartbeat_update_events |].
  split; [apply filter_heartbeat_update_events |].
  unfold update_events.
  destruct (Z.eqb_spec (CInt.incr (m_step_count w) mod 100) 0) as [H | H];
    destruct escape; cbn; split; intros; try assumption; try reflexivity;
    try discriminate; contradiction.
Qed.

Lemma updates_trace (fs : list Frame) (w : World) :
  trace (updates fs w) = trace w ++ frames_events (m_step_count w) fs.
Proof.
  revert w. induction fs as [| f fs IH]; intros w.
  - cbn. rewrite app_nil_r. reflexivity.
  - rewrite updates_cons, IH, update_exec. cbn [trace m_step_count frames_events].
    rewrite <- app_assoc. reflexivity.
Qed.

(** Over a run of frames the heartbeat records are those of the counter
    values that are multiples of 100, in order. *)
Lemma heartbeats_of_frames (c : Z) (fs : list Frame) :
  filter is_heartbeat (frames_events c fs) =
  map heartbeat (filter (fun n => n mod 100 =? 0) (counts_reached c (List.length fs))).
Proof.
  revert c. induction fs as [| f fs IH]; intros c.
  - reflexivity.
  - cbn [frames_events List.length counts_reached filter].
    rewrite filter_app, filter_heartbeat_update_events, IH.
    destruct (CInt.incr c mod 100 =? 0); reflexivity.
Qed.

Example heartbeats_of_250_frames :
  filter is_heartbeat
         (trace (updates (quiet_frames 250) (exec (GameManager.startUp env_ok) constructed)))
  = [heartbeat 100; heartbeat 200].
Proof. vm_compute. reflexivity. Qed.

(** ** Shutdown *)

(** C5: from every state, shutDown first sets the game-over flag (running
    becomes false) having called no manager's shutDown yet, then calls the
    shutDown of SEM, EM, IM and LM, the reverse of the start-up order, and
    that of the base class; it ends with running false and no manager
    started.  This holds for the constructed state too, where startUp was
    never called. *)
Theorem shutDown_stops_then_tears_down (w : World) :
  exec GameManager.shutDown w = exec teardown (exec shutDown_prologue w) /\
  running (exec shutDown_prologue w) = false /\
  trace (exec shutDown_prologue w) = trace w ++ shutDown_prologue_events /\
  lifecycle shutDown_prologue_events = [] /\
  trace (exec GameManager.shutDown w)
    = trace (exec shutDown_prologue w) ++ teardown_events /\
  lifecycle teardown_events = map ShutDown (rev startup_order) /\
  running (exec GameManager.shutDown w) = false /\
  m_step_count (exec GameManager.shutDown w) = m_step_count w /\
  (forall m, is_started (trace (exec GameManager.shutDown w)) m = false) /\
  running (exec GameManager.shutDown constructed) = false.
Proof.
  rewrite shutDown_exec.
  assert (Hp : exec shutDown_prologue w =
               {| m_game_over := true; m_step_count := m_step_count w;
                  trace := trace w ++ shutDown_prologue_events |}).
  { unfold exec, shutDown_prologue, GameManager.setGameOver,
      GameManager.setGameOver_default, writeLog, emit, set_game_over, when, ret, bind.
    cbn. rewrite <- app_assoc. reflexivity. }
  rewrite Hp. cbn [trace m_game_over m_step_count running negb].
  repeat split.
  - unfold exec, teardown, shutDown_of, Manager_shutDown, emit, bind. cbn.
    repeat rewrite <- app_assoc. reflexivity.
  - rewrite app_assoc. reflexivity.
  - intros m. rewrite app_assoc, is_started_app.
    destruct m; reflexivity.
Qed.

(** ** Where the state may change *)

Lemma incr_in_range (z : Z) : CInt.in_range (CInt.incr z).
Proof. apply wrap_in_range. Qed.

Lemma incr_decreases_only_at_max (z : Z) :
  CInt.in_range z -> CInt.incr z < z -> z = CInt.INT_MAX.
Proof.
  intros Hz Hlt. destruct (Z.eq_dec z CInt.INT_MAX) as [E | N]; [exact E |].
  rewrite incr_below in Hlt; unfold CInt.in_range in Hz; lia.
Qed.

Lemma step_in_range (w : World) (op : Op) :
  CInt.in_range (m_step_count w) -> CInt.in_range (m_step_count (step w op)).
Proof.
  intros Hw. destruct op as [e | dt escape | | b | | | d | s]; cbn [step].
  5-8: exact Hw.
  - destruct (all_start e) eqn:H.
    + unfold exec. rewrite (startUp_success e w H). cbn.
      unfold CInt.in_range, CInt.INT_MIN, CInt.INT_MAX. lia.
    + rewrite (proj2 (proj2 (startUp_failure e w H))). exact Hw.
  - rewrite update_exec. apply incr_in_range.
  - rewrite shutDown_exec. exact Hw.
  - rewrite setGameOver_exec. exact Hw.
Qed.

(** Every state reached from the constructed one holds an [int] counter. *)
Lemma run_in_range (ops : list Op) (w : World) :
  CInt.in_range (m_step_count w) -> CInt.in_range (m_step_count (run ops w)).
Proof.
  revert w. induction ops as [| op ops IH]; intros w Hw; [exact Hw |].
  cbn. apply IH. apply step_in_range. exact Hw.
Qed.

(** The getters return the state they were given. *)
Ltac read_only :=
  unfold exec, GameManager.getGameOver, GameManager.getStepCount, get_step_count,
    GameManager.getFrameTime;
  cbn [snd].

(** C7, amended: over the public operations, from a state whose counter is an
    [int], (1) the step count changes only in update, which increments it, and
    in a startUp returning 0, which resets it to 0; (2) update adds exactly 1
    below INT_MAX; (3) the step count decreases only by that reset or when the
    increment overflows at INT_MAX; (4) running goes from false to true only
    in a startUp returning 0 or in setGameOver(false); (5) running goes from
    true to false only in setGameOver(true), in an update that sees the
    escape key, or in shutDown. *)
Theorem state_changes_only_where_allowed (w : World) (op : Op) :
  CInt.in_range (m_step_count w) ->
  (m_step_count (step w op) <> m_step_count w ->
     (exists dt escape, op = OpUpdate dt escape /\
                        m_step_count (step w op) = CInt.incr (m_step_count w)) \/
     (exists e, op = OpStartUp e /\ result (GameManager.startUp e) w = 0 /\
                m_step_count (step w op) = 0)) /\
  (forall dt escape, op = OpUpdate dt escape -> m_step_count w < CInt.INT_MAX ->
     m_step_count (step w op) = m_step_count w + 1) /\
  (m_step_count (step w op) < m_step_count w ->
     (exists e, op = OpStartUp e /\ result (GameManager.startUp e) w = 0 /\
                m_step_count (step w op) = 0) \/
     (exists dt escape, op = OpUpdate dt escape /\ m_step_count w = CInt.INT_MAX)) /\
  (running w = false -> running (step w op) = true ->
     (exists e, op = OpStartUp e /\ result (GameManager.startUp e) w = 0) \/
     op = OpSetGameOver false) /\
  (running w = true -> running (step w op) = false ->
     op = OpSetGameOver true \/ (exists dt, op = OpUpdate dt true) \/ op = OpShutDown).
Proof.
  intros Hw. unfold running.
  destruct op as [e | dt escape | | b | | | d | s]; cbn [step].
  - (* startUp *)
    destruct (all_start e) eqn:H.
    + assert (Hr : result (GameManager.startUp e) w = 0)
        by (apply startUp_returns_0_iff; exact H).
      unfold exec. rewrite (startUp_success e w H). cbn [snd m_step_count m_game_over].
      repeat split; intros; try discriminate.
      * right. exists e. auto.
      * left. exists e. auto.
      * left. exists e. auto.
    + destruct (startUp_failure e w H) as (_ & Hg & Hc). rewrite Hg, Hc.
      repeat split; intros; try discriminate; try lia; try congruence.
  - (* update *)
    rewrite update_exec. cbn [m_step_count m_game_over].
    repeat split; intros.
    + left. exists dt, escape. auto.
    + apply incr_below. unfold CInt.in_range in Hw. lia.
    + right. exists dt, escape. split; [reflexivity |].
      apply incr_decreases_only_at_max; assumption.
    + destruct escape, (m_game_over w); discriminate.
    + right. left. exists dt. destruct escape, (m_game_over w); try discriminate.
      reflexivity.
  - (* shutDown *)
    rewrite shutDown_exec. cbn [m_step_count m_game_over].
    repeat split; intros; try discriminate; try lia; auto.
  - (* setGameOver *)
    rewrite setGameOver_exec. cbn [m_step_count m_game_over].
    repeat split; intros; try discriminate; try lia.
    + right. destruct b; [discriminate | reflexivity].
    + left. destruct b; [reflexivity | destruct (m_game_over w); discriminate].
  - read_only. repeat split; intros; solve [congruence | lia | destruct (m_game_over w); discriminate].
  - read_only. repeat split; intros; solve [congruence | lia | destruct (m_game_over w); discriminate].
  - read_only. repeat split; intros; solve [congruence | lia | destruct (m_game_over w); discriminate].
  - read_only. repeat split; intros; solve [congruence | lia | destruct (m_game_over w); discriminate].
Qed.

Lemma state_changes_only_where_allowed_witness :
  CInt.in_range (m_step_count after_seven_steps) /\
  running after_seven_steps = false /\
  running (step after_seven_steps (OpSetGameOver false)) = true /\
  ((exists e, OpSetGameOver false = OpStartUp e /\
              result (GameManager.startUp e) after_seven_steps = 0) \/
   OpSetGameOver false = OpSetGameOver false).
Proof.
  assert (Hw : CInt.in_range (m_step_count after_seven_steps))
    by (split; intros H; discriminate H).
  split; [exact Hw |]. split; [reflexivity |]. split; [reflexivity |].
  exact (proj1 (proj2 (proj2 (proj2
    (state_changes_only_where_allowed after_seven_steps (OpSetGameOver false) Hw))))
    eq_refl eq_refl).
Defined.

Lemma after_int_max_frames_count : m_step_count after_int_max_frames = CInt.INT_MAX.
Proof.
  unfold after_int_max_frames. rewrite updates_step_count.
  - rewrite quiet_frames_length by (intros H; discriminate H). reflexivity.
  - split; intros H; discriminate H.
Qed.

(** C7 as stated fails twice.  After setGameOver(true), setGameOver(false)
    takes running from false to true outside startUp.  And in the state
    reached by 2^31 - 1 updates, one more update takes the step count from
    2^31 - 1 down to -2^31. *)
Lemma running_resumes_and_count_drops_outside_startUp :
  running (step constructed (OpSetGameOver true)) = false /\
  is_startUp (OpSetGameOver false) = false /\
  running (step (step constructed (OpSetGameOver true)) (OpSetGameOver false)) = true /\
  is_startUp (OpUpdate sixtieth false) = false /\
  m_step_count after_int_max_frames = 2147483647 /\
  m_step_count (step after_int_max_frames (OpUpdate sixtieth false)) = -2147483648 /\
  m_step_count (step after_int_max_frames (OpUpdate sixtieth false))
  < m_step_count after_int_max_frames.
Proof.
  assert (H : m_step_count (step after_int_max_frames (OpUpdate sixtieth false))
              = -2147483648).
  { cbn [step]. rewrite update_exec. cbn [m_step_count].
    rewrite after_int_max_frames_count. reflexivity. }
  split; [reflexivity |]. split; [reflexivity |]. split; [reflexivity |].
  split; [reflexivity |]. split; [exact after_int_max_frames_count |].
  split; [exact H |].
  rewrite H, after_int_max_frames_count. reflexivity.
Qed.

(** ** update does not look at the flag *)

(** C10, amended: update has no gate on the game-over flag and no early
    return.  In every state, whatever the flag and whatever the step count,
    it applies the [int] increment to the step count, asks the input manager
    whether the escape key was just pressed, and ends by handing dt to
    updateSystems; the step count and the calls are the same with the flag
    set either way.  The increment adds exactly 1 whenever the step count is
    an [int] below INT_MAX. *)
Theorem update_ignores_game_over (dt : float) (escape : bool) (w : World) :
  m_step_count (exec (GameManager.update dt escape) w) = CInt.incr (m_step_count w) /\
  (CInt.INT_MIN <= m_step_count w < CInt.INT_MAX ->
   m_step_count (exec (GameManager.update dt escape) w) = m_step_count w + 1) /\
  (exists before after,
     trace (exec (GameManager.update dt escape) w) =
     trace w ++ before ++ [IsKeyJustPressed GLFW_KEY_ESCAPE escape]
             ++ after ++ [UpdateSystems dt]) /\
  (forall b,
     m_step_count (exec (GameManager.update dt escape) (with_game_over b w))
     = m_step_count (exec (GameManager.update dt escape) w) /\
     trace (exec (GameManager.update dt escape) (with_game_over b w))
     = trace (exec (GameManager.update dt escape) w)).
Proof.
  split; [rewrite update_exec; reflexivity |]. split; [| split].
  - intros Hw. rewrite update_exec. cbn [m_step_count].
    apply incr_below. exact Hw.
  - rewrite update_exec. cbn [trace]. unfold update_events.
    eexists. eexists. reflexivity.
  - intros b. rewrite !update_exec. cbn [m_step_count trace with_game_over].
    split; reflexivity.
Qed.

Lemma update_ignores_game_over_witness :
  CInt.INT_MIN <= m_step_count after_seven_steps < CInt.INT_MAX /\
  running after_seven_steps = false /\
  m_step_count (exec (GameManager.update sixtieth false) after_seven_steps) = 8.
Proof.
  assert (Hw : CInt.INT_MIN <= m_step_count after_seven_steps < CInt.INT_MAX)
    by (split; [intros H; discriminate H | reflexivity]).
  split; [exact Hw |]. split; [reflexivity |].
  exact (proj1 (proj2 (update_ignores_game_over sixtieth false after_seven_steps)) Hw).
Defined.

(** C10 as stated fails where the step count is INT_MAX: with running false,
    update takes the step count from 2^31 - 1 to -2^31, not to 2^31.  The
    step count 2^31 - 1 is the one reached after 2^31 - 1 updates. *)
Lemma update_at_int_max_does_not_add_1 :
  running (at_int_max true) = false /\
  m_step_count (at_int_max true) = m_step_count after_int_max_frames /\
  m_step_count (exec (GameManager.update sixtieth false) (at_int_max true))
  = -2147483648 /\
  m_step_count (exec (GameManager.update sixtieth false) (at_int_max true))
  <> m_step_count (at_int_max true) + 1.
Proof.
  split; [reflexivity |].
  split; [rewrite after_int_max_frames_count; reflexivity |].
  split; [reflexivity | discriminate].
Qed.

(** ** Clock *)

Lemma clock_calls_skip_splits (ks : list Clock.Call) (c : Clock.t) :
  snd (Clock.calls ks c) =
  snd (Clock.calls (filter (fun k => negb (Clock.is_split k)) ks) c).
Proof.
  revert c. induction ks as [| k ks IH]; intros c; [reflexivity |].
  destruct k as [now | now]; cbn [filter Clock.is_split negb Clock.calls snd].
  - apply IH.
  - cbn. apply IH.
Qed.

(** C8: split returns the clock it was given, so a split between two deltas
    changes neither the value nor the clock the second delta produces; more
    generally the reference point after any calls is the one the deltas
    alone leave.  A delta that reads the time source moves the reference
    point to that reading. *)
Theorem split_keeps_reference_point
    (c : Clock.t) (t1 t2 t3 : Clock.Reading) (now : Z) (ks : list Clock.Call) :
  snd (Clock.split t2 c) = c /\
  Clock.delta t3 (snd (Clock.split t2 (snd (Clock.delta t1 c))))
    = Clock.delta t3 (snd (Clock.delta t1 c)) /\
  snd (Clock.calls ks c)
    = snd (Clock.calls (filter (fun k => negb (Clock.is_split k)) ks) c) /\
  Clock.m_previous_time (snd (Clock.delta (Some now) c)) = now /\
  Clock.m_previous_time (snd (Clock.split (Some now) c)) = Clock.m_previous_time c.
Proof.
  repeat split. apply clock_calls_skip_splits.
Qed.

Example clock_delta_split_delta :
  Clock.calls [Clock.Delta (Some 1500); Clock.Split (Some 1700); Clock.Delta (Some 2100)]
              (Clock.create 1000)
  = ([500; 200; 600], Clock.create 2100).
Proof. reflexivity. Qed.

(** * Further properties of the GameManager *)

(** ** The calls of [startUp] *)

Lemma startUp_trace (e : StartUpEnv) (w : World) :
  trace (exec (GameManager.startUp e) w) = trace w ++ startUp_events e.
Proof.
  eval_startUp e w. unfold startUp_events, registration_events, scene_events.
  repeat match type of Hrun with
    | context [CInt.truthy ?x] =>
        destruct (CInt.truthy x); cbn in Hrun;
        try (injection Hrun as <- <-; cbn; repeat rewrite <- app_assoc; reflexivity)
    end.
  destruct (registered e), (load_first e), (load_retry e); cbn in Hrun;
    injection Hrun as <- <-; cbn; repeat rewrite <- app_assoc; reflexivity.
Qed.

Lemma all_start_truthy (e : StartUpEnv) :
  all_start e =
  negb (CInt.truthy (parent_status e)) && negb (CInt.truthy (status e LM))
  && negb (CInt.truthy (status e IM)) && negb (CInt.truthy (status e EM))
  && negb (CInt.truthy (status e SEM)).
Proof. unfold all_start, CInt.truthy. repeat rewrite negb_involutive. reflexivity. Qed.

(** X1: startUp returns 0 or -1 and nothing else; it returns 0 exactly when
    the base class and the four managers all return status 0 (any other
    status, positive or negative, is a failure); the value does not depend
    on the state startUp is called in. *)
Theorem startUp_return_code (e : StartUpEnv) (w : World) :
  (result (GameManager.startUp e) w = 0 \/ result (GameManager.startUp e) w = -1) /\
  (result (GameManager.startUp e) w = 0 <->
   parent_status e = 0 /\ forall m, status e m = 0) /\
  (forall w', result (GameManager.startUp e) w' = result (GameManager.startUp e) w).
Proof.
  split; [| split].
  - rewrite startUp_result. destruct (all_start e); auto.
  - rewrite startUp_returns_0_iff. apply all_start_true_iff.
  - intros w'. rewrite !startUp_result. reflexivity.
Qed.

(** X2: when Manager::startUp, the base class, returns a non-zero status,
    startUp returns -1 having made no other call: no manager is started,
    nothing is logged, and both fields are as before. *)
Theorem base_class_failure_starts_nothing (e : StartUpEnv) (w : World) :
  parent_status e <> 0 ->
  result (GameManager.startUp e) w = -1 /\
  trace (exec (GameManager.startUp e) w)
    = trace w ++ [Manager_startUp_call (parent_status e)] /\
  m_game_over (exec (GameManager.startUp e) w) = m_game_over w /\
  m_step_count (exec (GameManager.startUp e) w) = m_step_count w.
Proof.
  intros Hp. apply truthy_true_iff in Hp.
  assert (Ha : all_start e = false) by (rewrite all_start_truthy, Hp; reflexivity).
  destruct (startUp_failure e w Ha) as (Hr & Hg & Hc).
  split; [exact Hr |]. split; [| split; assumption].
  rewrite startUp_trace. unfold startUp_events. rewrite Hp. reflexivity.
Qed.

Lemma base_class_failure_starts_nothing_witness :
  parent_status env_base_failing <> 0 /\
  result (GameManager.startUp env_base_failing) after_seven_steps = -1 /\
  trace (exec (GameManager.startUp env_base_failing) after_seven_steps)
    = [Manager_startUp_call 1].
Proof.
  assert (Hp : parent_status env_base_failing <> 0) by (cbn; discriminate).
  split; [exact Hp |].
  pose proof (base_class_failure_starts_nothing env_base_failing after_seven_steps Hp)
    as (Hr & Ht & _).
  split; [exact Hr | exact Ht].
Defined.

(** X3: when the base class and the four managers return status 0, the
    start-up and shut-down calls startUp makes are the four starts in the
    start-up order and no shut-down, and afterwards every manager is started,
    whatever was started before. *)
Theorem successful_startUp_starts_all (e : StartUpEnv) (w : World) :
  parent_status e = 0 ->
  (forall m, status e m = 0) ->
  lifecycle (startUp_events e) = map (fun m => StartUp m 0) startup_order /\
  trace (exec (GameManager.startUp e) w) = trace w ++ startUp_events e /\
  forall m, is_started (trace (exec (GameManager.startUp e) w)) m = true.
Proof.
  intros Hp Hs.
  assert (He : startUp_events e =
               all_started_events ++ registration_events (registered e)
               ++ scene_events (getAssetFilePath e "Scene/Game.scn")
                               (load_first e) (save_ok e) (load_retry e)).
  { unfold startUp_events. rewrite Hp, !Hs. reflexivity. }
  split; [| split].
  - rewrite He. unfold registration_events, scene_events.
    destruct (load_first e); reflexivity.
  - apply startUp_trace.
  - intros m. rewrite startUp_trace, is_started_app, He.
    unfold registration_events, scene_events.
    destruct (load_first e), m; reflexivity.
Qed.

Lemma successful_startUp_starts_all_witness :
  parent_status env_degraded = 0 /\
  (forall m, status env_degraded m = 0) /\
  forall m,
    is_started (trace (exec (GameManager.startUp env_degraded) after_seven_steps)) m
    = true.
Proof.
  split; [reflexivity |]. split; [intros m; reflexivity |].
  exact (proj2 (proj2 (successful_startUp_starts_all env_degraded after_seven_steps
                         eq_refl (fun m => eq_refl)))).
Defined.

Lemma logs_while_up_app (up : bool) (t u : list Event) :
  logs_while_up up (t ++ u) =
  logs_while_up up t && logs_while_up (started_from up t LM) u.
Proof.
  revert up. induction t as [| ev t IH]; intros up; [reflexivity |].
  cbn [app logs_while_up]. rewrite IH, andb_assoc. reflexivity.
Qed.

Lemma startUp_events_log_while_up (e : StartUpEnv) :
  logs_while_up false (startUp_events e) = true.
Proof.
  unfold startUp_events, registration_events, scene_events, CInt.truthy.
  destruct (parent_status e =? 0); [| reflexivity].
  destruct (status e LM =? 0) eqn:El; cbn; rewrite ?El; [| reflexivity].
  destruct (status e IM =? 0); cbn; [| reflexivity].
  destruct (status e EM =? 0); cbn; [| reflexivity].
  destruct (status e SEM =? 0); cbn; [| reflexivity].
  destruct (load_first e); reflexivity.
Qed.

(** X4: in every startUp run, whatever the collaborators answer and even if
    the LogManager was not started before, each writeLog call is made after
    the LogManager has started successfully and before it is shut down: a
    failure of the base class or of the LogManager itself is not logged, and
    the failure record of a later manager is written before the roll-back. *)
Theorem startUp_logs_only_while_LM_is_up (e : StartUpEnv) (w : World) :
  exists evs,
    trace (exec (GameManager.startUp e) w) = trace w ++ evs /\
    logs_while_up false evs = true.
Proof.
  exists (startUp_events e). split.
  - apply startUp_trace.
  - apply startUp_events_log_while_up.
Qed.

(** X5: a startUp that returns -1 never reaches the one-time actions: it
    makes no registerSystem, loadScene or saveScene call. *)
Theorem failed_startUp_skips_late_actions (e : StartUpEnv) (w : World) :
  result (GameManager.startUp e) w = -1 ->
  exists evs,
    trace (exec (GameManager.startUp e) w) = trace w ++ evs /\
    filter is_late_action evs = [].
Proof.
  intros Hr. apply startUp_returns_minus_1_iff in Hr.
  exists (startUp_events e). split; [apply startUp_trace |].
  rewrite all_start_truthy in Hr. unfold startUp_events.
  destruct (CInt.truthy (parent_status e)); [reflexivity |].
  destruct (CInt.truthy (status e LM)); [reflexivity |].
  destruct (CInt.truthy (status e IM)); [reflexivity |].
  destruct (CInt.truthy (status e EM)); [reflexivity |].
  destruct (CInt.truthy (status e SEM)); [reflexivity | discriminate].
Qed.

Lemma failed_startUp_skips_late_actions_witness :
  result (GameManager.startUp (env_failing SEM)) constructed = -1 /\
  exists evs,
    trace (exec (GameManager.startUp (env_failing SEM)) constructed)
    = trace constructed ++ evs /\
    filter is_late_action evs = [].
Proof.
  split; [reflexivity |].
  exact (failed_startUp_skips_late_actions (env_failing SEM) constructed eq_refl).
Defined.

(** ** Sessions *)

Lemma step_trace_in_session (w : World) (op : Op) :
  in_session op = true ->
  exists evs,
    trace (step w op) = trace w ++ evs /\
    logs_while_up true evs = true /\
    started_from true evs LM = true.
Proof.
  intros Hop. destruct op as [e | dt escape | | b | | | d | s]; try discriminate;
    cbn [step].
  - rewrite update_exec. cbn [trace]. eexists. split; [reflexivity |].
    unfold update_events.
    destruct (CInt.incr (m_step_count w) mod 100 =? 0), escape; split; reflexivity.
  - rewrite setGameOver_exec. cbn [trace]. eexists. split; [reflexivity |].
    destruct b; split; reflexivity.
  - exists []. rewrite app_nil_r. repeat split.
  - exists []. rewrite app_nil_r. repeat split.
  - exists []. rewrite app_nil_r. repeat split.
  - exists []. rewrite app_nil_r. repeat split.
Qed.

Lemma run_trace_in_session (ops : list Op) (w : World) :
  forallb in_session ops = true ->
  exists evs,
    trace (run ops w) = trace w ++ evs /\
    logs_while_up true evs = true /\
    started_from true evs LM = true.
Proof.
  revert w. induction ops as [| op ops IH]; intros w Hops.
  - exists []. rewrite app_nil_r. repeat split.
  - cbn in Hops. apply andb_true_iff in Hops. destruct Hops as [Hop Hops].
    destruct (step_trace_in_session w op Hop) as (e1 & Ht1 & Hl1 & Hs1).
    destruct (IH (step w op) Hops) as (e2 & Ht2 & Hl2 & Hs2).
    exists (e1 ++ e2). cbn [run fold_left]. fold (run ops (step w op)).
    rewrite Ht2, Ht1, <- app_assoc. split; [reflexivity |].
    rewrite logs_while_up_app, started_from_app, Hl1, Hs1, Hl2, Hs2. auto.
Qed.

Lemma run_app (ops ops' : list Op) (w : World) :
  run (ops ++ ops') w = run ops' (run ops w).
Proof. unfold run. apply fold_left_app. Qed.

Lemma startUp_events_start_LM (e : StartUpEnv) (up : bool) :
  parent_status e = 0 ->
  (forall m, status e m = 0) ->
  started_from up (startUp_events e) LM = true.
Proof.
  intros Hp Hs. unfold startUp_events, registration_events, scene_events.
  rewrite Hp, !Hs. destruct (load_first e); reflexivity.
Qed.

(** X6: over a whole session, a startUp that returns 0, then any updates,
    setGameOver calls and getters, then shutDown, every writeLog call is made
    while the LogManager is started, even if it was not started before the
    session; in particular shutDown writes its records before it shuts the
    LogManager down. *)
Theorem session_logs_while_LM_is_up (e : StartUpEnv) (middle : list Op) (w : World) :
  result (GameManager.startUp e) w = 0 ->
  forallb in_session middle = true ->
  exists evs,
    trace (run (OpStartUp e :: middle ++ [OpShutDown]) w) = trace w ++ evs /\
    logs_while_up false evs = true.
Proof.
  intros Hr Hm. apply startUp_returns_0_iff in Hr.
  apply all_start_true_iff in Hr. destruct Hr as [Hp Hs].
  change (run (OpStartUp e :: middle ++ [OpShutDown]) w)
    with (run (middle ++ [OpShutDown]) (exec (GameManager.startUp e) w)).
  rewrite run_app.
  destruct (run_trace_in_session middle (exec (GameManager.startUp e) w) Hm)
    as (em & Htm & Hlm & Hsm).
  cbn [run fold_left step]. rewrite shutDown_exec. cbn [trace].
  fold (run middle (exec (GameManager.startUp e) w)).
  rewrite Htm, startUp_trace.
  exists (startUp_events e ++ em ++ shutDown_prologue_events ++ teardown_events).
  split; [repeat rewrite <- app_assoc; reflexivity |].
  pose proof (startUp_events_start_LM e false Hp Hs) as Hup.
  rewrite logs_while_up_app, startUp_events_log_while_up, Hup.
  rewrite logs_while_up_app, Hlm, Hsm. reflexivity.
Qed.

Lemma session_logs_while_LM_is_up_witness :
  result (GameManager.startUp env_ok) constructed = 0 /\
  forallb in_session (map frame_op five_frames ++ [OpGetStepCount]) = true /\
  exists evs,
    trace (run (OpStartUp env_ok
                :: (map frame_op five_frames ++ [OpGetStepCount]) ++ [OpShutDown])
               constructed)
    = trace constructed ++ evs /\
    logs_while_up false evs = true.
Proof.
  split; [reflexivity |]. split; [reflexivity |].
  exact (session_logs_while_LM_is_up env_ok
           (map frame_op five_frames ++ [OpGetStepCount]) constructed eq_refl eq_refl).
Defined.

(** X7: shutDown has no guard against a second call.  Called twice, it makes
    all of its calls twice, the second run after the first, and leaves the
    fields as a single call does: game over set, step count untouched. *)
Theorem shutDown_twice (w : World) :
  trace (exec GameManager.shutDown (exec GameManager.shutDown w))
    = trace w ++ (shutDown_prologue_events ++ teardown_events)
              ++ (shutDown_prologue_events ++ teardown_events) /\
  m_game_over (exec GameManager.shutDown (exec GameManager.shutDown w))
    = m_game_over (exec GameManager.shutDown w) /\
  m_step_count (exec GameManager.shutDown (exec GameManager.shutDown w))
    = m_step_count (exec GameManager.shutDown w).
Proof.
  rewrite !shutDown_exec. cbn [trace m_game_over m_step_count].
  split; [| split; reflexivity].
  rewrite <- !app_assoc. reflexivity.
Qed.

(** ** Runs of frames *)

(** X8: every update is counted, whether or not it sees the escape key and
    whatever dt it is given: from a step count c, n updates that do not take
    the counter past INT_MAX leave the step count at c + n. *)
Theorem every_frame_is_counted (fs : list Frame) (w : World) :
  CInt.INT_MIN <= m_step_count w ->
  m_step_count w + Z.of_nat (List.length fs) <= CInt.INT_MAX ->
  m_step_count (updates fs w) = m_step_count w + Z.of_nat (List.length fs).
Proof.
  intros Hlo Hhi.
  rewrite updates_step_count by (unfold CInt.in_range; lia).
  apply wrap_id. unfold CInt.in_range. lia.
Qed.

Lemma every_frame_is_counted_witness :
  CInt.INT_MIN <= m_step_count after_seven_steps /\
  m_step_count after_seven_steps + Z.of_nat (List.length five_frames) <= CInt.INT_MAX /\
  m_step_count (updates five_frames after_seven_steps) = 12.
Proof.
  assert (Hlo : CInt.INT_MIN <= m_step_count after_seven_steps)
    by (intros H; discriminate H).
  assert (Hhi : m_step_count after_seven_steps + Z.of_nat (List.length five_frames)
                <= CInt.INT_MAX)
    by (intros H; discriminate H).
  split; [exact Hlo |]. split; [exact Hhi |].
  exact (every_frame_is_counted five_frames after_seven_steps Hlo Hhi).
Defined.

(** X9: update only ever sets the game-over flag.  After any run of frames
    the flag is set exactly when it was set before or some frame of the run
    saw the escape key; no frame clears it. *)
Theorem game_over_is_latched (fs : list Frame) (w : World) :
  m_game_over (updates fs w) = true <->
  m_game_over w = true \/ exists f, In f fs /\ snd f = true.
Proof.
  rewrite updates_game_over, orb_true_iff, existsb_exists. tauto.
Qed.

Lemma multiples_step (c : Z) :
  (c + 1) / 100 - c / 100 = if (c + 1) mod 100 =? 0 then 1 else 0.
Proof.
  destruct (Z.eqb_spec ((c + 1) mod 100) 0) as [H | H];
    Z.div_mod_to_equations; lia.
Qed.

Lemma multiples_reached (n : nat) (c : Z) :
  CInt.INT_MIN <= c ->
  c + Z.of_nat n <= CInt.INT_MAX ->
  Z.of_nat (List.length (filter (fun k => k mod 100 =? 0) (counts_reached c n)))
  = (c + Z.of_nat n) / 100 - c / 100.
Proof.
  revert c. induction n as [| n IH]; intros c Hlo Hhi.
  - rewrite Z.add_0_r. cbn. lia.
  - cbn [counts_reached filter].
    rewrite incr_below by lia.
    assert (Hrest : Z.of_nat (List.length
               (filter (fun k => k mod 100 =? 0) (counts_reached (c + 1) n)))
             = (c + 1 + Z.of_nat n) / 100 - (c + 1) / 100)
      by (apply IH; unfold CInt.INT_MIN in *; lia).
    pose proof (multiples_step c) as Hstep.
    replace (c + Z.of_nat (S n)) with (c + 1 + Z.of_nat n) by lia.
    destruct ((c + 1) mod 100 =? 0); cbn [List.length]; lia.
Qed.

(** X10: the number of heartbeat records follows from the step counts alone.
    A run of n frames that starts at step count c and does not take the
    counter past INT_MAX writes floor((c + n) / 100) - floor(c / 100)
    heartbeat records, one for each multiple of 100 the counter reaches;
    from a fresh start-up (c = 0) that is floor(n / 100). *)
Theorem heartbeats_of_a_run (fs : list Frame) (w : World) :
  CInt.INT_MIN <= m_step_count w ->
  m_step_count w + Z.of_nat (List.length fs) <= CInt.INT_MAX ->
  exists evs,
    trace (updates fs w) = trace w ++ evs /\
    filter is_heartbeat evs =
      map heartbeat (filter (fun k => k mod 100 =? 0)
                            (counts_reached (m_step_count w) (List.length fs))) /\
    Z.of_nat (List.length (filter is_heartbeat evs))
    = (m_step_count w + Z.of_nat (List.length fs)) / 100 - m_step_count w / 100.
Proof.
  intros Hlo Hhi. exists (frames_events (m_step_count w) fs).
  split; [apply updates_trace |]. split; [apply heartbeats_of_frames |].
  rewrite heartbeats_of_frames, length_map.
  apply multiples_reached; assumption.
Qed.

Lemma heartbeats_of_a_run_witness :
  CInt.INT_MIN <= m_step_count constructed /\
  m_step_count constructed + Z.of_nat (List.length (quiet_frames 250)) <= CInt.INT_MAX /\
  exists evs,
    trace (updates (quiet_frames 250) constructed) = trace constructed ++ evs /\
    filter is_heartbeat evs =
      map heartbeat (filter (fun k => k mod 100 =? 0)
                            (counts_reached (m_step_count constructed)
                                            (List.length (quiet_frames 250)))) /\
    Z.of_nat (List.length (filter is_heartbeat evs))
    = (m_step_count constructed + Z.of_nat (List.length (quiet_frames 250))) / 100
      - m_step_count constructed / 100.
Proof.
  assert (Hlo : CInt.INT_MIN <= m_step_count constructed)
    by (intros H; discriminate H).
  assert (Hhi : m_step_count constructed + Z.of_nat (List.length (quiet_frames 250))
                <= CInt.INT_MAX)
    by (vm_compute; intros H; discriminate H).
  split; [exact Hlo |]. split; [exact Hhi |].
  exact (heartbeats_of_a_run (quiet_frames 250) constructed Hlo Hhi).
Defined.

Lemma filter_forward_update_events (n : Z) (dt : float) (escape : bool) :
  filter is_forward (update_events n dt escape) = [UpdateSystems dt].
Proof.
  unfold update_events. destruct (n mod 100 =? 0), escape; reflexivity.
Qed.

Lemma filter_key_query_update_events (n : Z) (dt : float) (escape : bool) :
  filter is_key_query (update_events n dt escape)
  = [IsKeyJustPressed GLFW_KEY_ESCAPE escape].
Proof.
  unfold update_events. destruct (n mod 100 =? 0), escape; reflexivity.
Qed.

(** X11: over any run of frames, also once the game is over or the counter
    has wrapped, update asks isKeyJustPressed exactly once per frame, always
    for the escape key, and calls updateSystems exactly once per frame with
    that frame's dt, in the order of the frames. *)
Theorem frames_are_forwarded_in_order (fs : list Frame) (w : World) :
  exists evs,
    trace (updates fs w) = trace w ++ evs /\
    filter is_forward evs = map (fun f => UpdateSystems (fst f)) fs /\
    filter is_key_query evs
    = map (fun f => IsKeyJustPressed GLFW_KEY_ESCAPE (snd f)) fs.
Proof.
  exists (frames_events (m_step_count w) fs).
  split; [apply updates_trace |].
  generalize (m_step_count w) as c.
  induction fs as [| f fs IH]; intros c; [split; reflexivity |].
  cbn [frames_events map]. rewrite !filter_app.
  rewrite filter_forward_update_events, filter_key_query_update_events.
  destruct (IH (CInt.incr c)) as [Hf Hk]. rewrite Hf, Hk. split; reflexivity.
Qed.

(** ** Sequences of public operations *)

(** X12: the getters and isValid only read.  Removing them from any sequence
    of operations changes neither the fields nor the calls made to the
    collaborators. *)
Theorem queries_can_be_dropped (ops : list Op) (w : World) :
  run ops w = run (filter (fun op => negb (is_query op)) ops) w.
Proof.
  revert w. induction ops as [| op ops IH]; intros w; [reflexivity |].
  destruct op as [e | dt escape | | b | | | d | s];
    cbn [filter is_query negb run fold_left step]; apply IH.
Qed.





(** isValid accepts the event name "step" and no other string. *)
Lemma isValid_only_step (event_name : string) :
  GameManager.isValid event_name = true <-> event_name = "step".
Proof. unfold GameManager.isValid. apply String.eqb_eq. Qed.

Lemma last_cons_default {A : Type} (x d : A) (l : list A) :
  last (x :: l) d = last l x.
Proof.
  revert x d. induction l as [| y l IH]; intros x d; [reflexivity |].
  change (last (x :: y :: l) d) with (last (y :: l) d).
  rewrite (IH y d), (IH y x). reflexivity.
Qed.

(** X14: setGameOver stores its argument and logs on every call whose
    argument is true, whether or not the flag changes.  After a sequence of
    setGameOver calls the flag is the last argument (the old flag if there
    was no call), the step count is untouched, and one record was written
    per true argument, none for a false one. *)
Theorem setGameOver_sequence (bs : list bool) (w : World) :
  m_game_over (run (map OpSetGameOver bs) w) = last bs (m_game_over w) /\
  m_step_count (run (map OpSetGameOver bs) w) = m_step_count w /\
  trace (run (map OpSetGameOver bs) w) = trace w ++ flat_map setGameOver_events bs.
Proof.
  revert w. induction bs as [| b bs IH]; intros w.
  - cbn. rewrite app_nil_r. auto.
  - cbn [map run fold_left step flat_map].
    fold (run (map OpSetGameOver bs) (exec (GameManager.setGameOver b) w)).
    destruct (IH (exec (GameManager.setGameOver b) w)) as (Hg & Hc & Ht).
    rewrite Hg, Hc, Ht, setGameOver_exec. cbn [m_game_over m_step_count trace].
    rewrite last_cons_default, <- app_assoc. auto.
Qed.
